(** * Explorer: the grid search, the placement of pieces and pitfalls,
      and the game state machine of [main.py].

    Cells are pairs of Python integers, so they are pairs of [Z]; Python
    sets of cells are [gset (Z * Z)]; the piece list is a [list].  The
    process-wide random source and the [math] functions are external to the
    program: they are the fields of a [Library] the program is run with,
    and drawing from the random source is a state transformer [Rand]. *)

From Stdlib Require Import ZArith Lia.
From Stdlib Require Import Floats.PrimFloat Floats.SpecFloat Floats.FloatOps.
From stdpp Require Import gmap sets list.

Open Scope Z_scope.
#[local] Set Warnings "-clear-no-such-hyp".

Abbreviation cell := (Z * Z)%type.

(** ** Constants *)

Definition TILE : Z := 40.
Definition COLS : Z := 15.
Definition ROWS : Z := 15.
Definition HUD_H : Z := 50.
Definition WIN_W : Z := COLS * TILE.
Definition WIN_H : Z := ROWS * TILE + HUD_H.
Definition NUM_PIECES : Z := 5.
Definition FLASH_DURATION : Z := 75.
Definition PIECE_DURATION : Z := 120.
Definition START_POS : cell := (7, 7).

(** [0 <= nb[0] < COLS and 0 <= nb[1] < ROWS] *)
Definition in_grid (nb : cell) : bool :=
  (0 <=? nb.1) && (nb.1 <? COLS) && (0 <=? nb.2) && (nb.2 <? ROWS).

(** ** Breadth-first search *)

(** The four offsets, in the order the [for] loop visits them. *)
Definition DIRS : list (Z * Z) := [(1, 0); (-1, 0); (0, 1); (0, -1)].

Definition step (c : cell) (d : Z * Z) : cell := (c.1 + d.1, c.2 + d.2).

(** Outcome of the inner [for] loop over the offsets: either the
    [return True] fired, or the loop ran to its end and leaves the updated
    [visited] set and queue. *)
Inductive scan_result : Type :=
| Found
| Scanned (visited : gset cell) (q : list cell).

Fixpoint scan_dirs (goal : cell) (blocked : gset cell) (c : cell)
    (dirs : list (Z * Z)) (visited : gset cell) (q : list cell) : scan_result :=
  match dirs with
  | [] => Scanned visited q
  | d :: rest =>
      let nb := step c d in
      if decide (nb = goal) then Found
      else if in_grid nb && bool_decide (nb ∉ blocked) && bool_decide (nb ∉ visited)
           then scan_dirs goal blocked c rest ({[nb]} ∪ visited) (q ++ [nb])
           else scan_dirs goal blocked c rest visited q
  end.

(** The [while q:] loop.  Each iteration pops the head of the queue; [fuel]
    bounds the number of iterations and [None] means the bound was hit
    (shown below never to happen with [BFS_FUEL]). *)
Fixpoint bfs_loop (fuel : nat) (goal : cell) (blocked : gset cell)
    (visited : gset cell) (q : list cell) : option bool :=
  match q with
  | [] => Some false
  | c :: q' =>
      match fuel with
      | O => None
      | S fuel' =>
          match scan_dirs goal blocked c DIRS visited q' with
          | Found => Some true
          | Scanned visited' q'' => bfs_loop fuel' goal blocked visited' q''
          end
      end
  end.

(** One more than the number of cells of the grid: the start cell may lie
    outside the grid, every other queued cell lies inside it. *)
Definition BFS_FUEL : nat := S (Z.to_nat (COLS * ROWS)).

Definition bfs_search (start goal : cell) (blocked : gset cell) : option bool :=
  bfs_loop BFS_FUEL goal blocked {[start]} [start].

Definition _bfs_reachable (start goal : cell) (blocked : gset cell) : bool :=
  if decide (start = goal) then true
  else default false (bfs_search start goal blocked).

(** [{(c, r) for c in range(COLS) for r in range(ROWS)}] *)
Definition all_cells : gset cell :=
  list_to_set (c ← seqZ 0 COLS; r ← seqZ 0 ROWS; [(c, r)]).

(** ** Reachability on the grid, stated independently of the search *)

(** Cells the search can expand: the start cell, and every in-grid,
    unblocked 4-neighbour of such a cell. *)
Inductive explored (blocked : gset cell) (start : cell) : cell → Prop :=
| explored_start : explored blocked start start
| explored_step c d :
    explored blocked start c →
    d ∈ DIRS →
    in_grid (step c d) = true →
    step c d ∉ blocked →
    explored blocked start (step c d).

(** The goal is met as a candidate neighbour of an expanded cell. *)
Definition discovered (blocked : gset cell) (start goal : cell) : Prop :=
  ∃ c d, explored blocked start c ∧ d ∈ DIRS ∧ step c d = goal.

(** ** The random source *)

(** Code that draws from Python's process-wide random source is a state
    transformer over the state [R] of that source. *)
Definition Rand (R A : Type) : Type := R → A * R.

#[export] Instance Rand_ret {R} : MRet (Rand R) := λ A (x : A) r, (x, r).
#[export] Instance Rand_bind {R} : MBind (Rand R) :=
  λ A B (f : A → Rand R B) (m : Rand R A) r, let '(x, r') := m r in f x r'.

(** What the program uses of Python's [random] and [math] modules.
    [shuffle] stands for [random.shuffle] applied to the list Python builds
    from a set, whose order is unspecified as well. *)
Record Library (R : Type) : Type := {
  shuffle : list cell → Rand R (list cell);
  uniform : float → float → Rand R float;
  randint : Z → Z → Rand R Z;
  choice : list (Z * Z * Z) → Rand R (Z * Z * Z);
  cos : float → float;
  sin : float → float;
  pi : float
}.
Arguments shuffle {R}.
Arguments uniform {R}.
Arguments randint {R}.
Arguments choice {R}.
Arguments cos {R}.
Arguments sin {R}.
Arguments pi {R}.

(** ** Placement of pieces and pitfalls *)

(** The first loop of [place_items]: walk the shuffled pool, keep the cells
    the search reaches on the empty grid, stop at [NUM_PIECES]. *)
Fixpoint place_pieces (pool : list cell) (pieces : list cell)
    (forbidden : gset cell) : list cell * gset cell :=
  match pool with
  | [] => (pieces, forbidden)
  | cell :: rest =>
      if bool_decide (NUM_PIECES ≤ Z.of_nat (length pieces)) then (pieces, forbidden)
      else if _bfs_reachable START_POS cell ∅
           then place_pieces rest (pieces ++ [cell]) ({[cell]} ∪ forbidden)
           else place_pieces rest pieces forbidden
  end.

(** The second loop: a candidate joins the pitfalls when every piece is
    still found by the search with the candidate blocked as well. *)
Fixpoint place_pitfalls (num_pitfalls : Z) (pieces : list cell)
    (candidates : list cell) (pitfalls : gset cell) : gset cell :=
  match candidates with
  | [] => pitfalls
  | cell :: rest =>
      if bool_decide (num_pitfalls ≤ Z.of_nat (size pitfalls)) then pitfalls
      else
        let trial := pitfalls ∪ {[cell]} in
        if forallb (λ p, _bfs_reachable START_POS p trial) pieces
        then place_pitfalls num_pitfalls pieces rest ({[cell]} ∪ pitfalls)
        else place_pitfalls num_pitfalls pieces rest pitfalls
  end.

Section Placement.
Context {R : Type} (lib : Library R).

Definition place_items (num_pitfalls : Z) : Rand R (list cell * gset cell) :=
  let forbidden : gset cell := {[START_POS]} in
  pool ← shuffle lib (elements (all_cells ∖ forbidden));
  let '(pieces, forbidden) := place_pieces pool [] forbidden in
  candidates ← shuffle lib (elements (all_cells ∖ forbidden));
  mret (pieces, place_pitfalls num_pitfalls pieces candidates ∅).
End Placement.

(** ** Star particles *)

#[local] Set Warnings "-inexact-float".

Abbreviation color := (Z * Z * Z)%type.

Definition C_GOLD_BRIGHT : color := (255, 230, 60).
Definition C_GOLD_MID : color := (230, 185, 20).
Definition C_GOLD_SHEEN : color := (255, 248, 180).

(** A Python number: the coordinates of a star are the [int]s handed to
    [make_stars] until the first update turns them into [float]s. *)
Inductive num : Type :=
| Int (z : Z)
| Float (f : float).

(** Python's conversion of an [int] to a [float], rounding to nearest.
    (Beyond the range of a float Python raises; the coordinates the program
    creates are window coordinates.) *)
Definition float_of_int (z : Z) : float :=
  SF2Prim (binary_normalize prec emax z 0 false).

(** [n + f] for a number [n] and a float [f]. *)
Definition num_add (n : num) (f : float) : num :=
  match n with
  | Int z => Float (float_of_int z + f)
  | Float g => Float (g + f)
  end.

Module Star.
Record t : Type := mk {
  x : num; y : num;
  vx : float; vy : float;
  life : float; decay : float;
  size : Z; color : color
}.
End Star.

(** [update_stars]: move every star, then keep the live ones. *)
Definition update_star (s : Star.t) : Star.t :=
  {| Star.x := num_add (Star.x s) (Star.vx s);
     Star.y := num_add (Star.y s) (Star.vy s);
     Star.vx := Star.vx s;
     Star.vy := (Star.vy s + 0.06)%float;
     Star.life := (Star.life s - Star.decay s)%float;
     Star.decay := Star.decay s;
     Star.size := Star.size s;
     Star.color := Star.color s |}.

Definition update_stars (stars : list Star.t) : list Star.t :=
  List.filter (λ s, (0 <? Star.life s)%float) (update_star <$> stars).

(** ** Data model *)

(** [screen_state]: "playing" | "flash" | "piece" | "win" *)
Inductive screen : Type := Playing | Flash | Piece | Win.

#[export] Instance screen_eq_dec : EqDecision screen.
Proof. solve_decision. Defined.

(** The key codes of pygame; the program tells these six apart and treats
    every other key alike. *)
Inductive key : Type :=
| K_UP | K_DOWN | K_LEFT | K_RIGHT | K_RETURN | K_SPACE | K_OTHER.

#[export] Instance key_eq_dec : EqDecision key.
Proof. solve_decision. Defined.

Record GameState : Type := {
  player_x : Z;
  player_y : Z;
  player_dir : Z;
  visited : gset cell;
  piece_positions : list cell;
  collected_pieces : gset cell;
  pitfall_positions : gset cell;
  revealed_pitfalls : gset cell;
  death_count : Z;
  num_pitfalls : Z;
  screen_state : screen;
  flash_timer : Z;
  piece_timer : Z;
  piece_origin : cell;
  win_angle : float;
  win_stars : list Star.t;
  star_spawn_timer : Z
}.

(** Assignments to the fields of the state ([state.f = v]). *)
Definition set_player_x (v : Z) (s : GameState) : GameState :=
  {| player_x := v; player_y := player_y s; player_dir := player_dir s;
     visited := visited s; piece_positions := piece_positions s;
     collected_pieces := collected_pieces s;
     pitfall_positions := pitfall_positions s;
     revealed_pitfalls := revealed_pitfalls s; death_count := death_count s;
     num_pitfalls := num_pitfalls s; screen_state := screen_state s;
     flash_timer := flash_timer s; piece_timer := piece_timer s;
     piece_origin := piece_origin s; win_angle := win_angle s;
     win_stars := win_stars s; star_spawn_timer := star_spawn_timer s |}.

Definition set_player_y (v : Z) (s : GameState) : GameState :=
  {| player_x := player_x s; player_y := v; player_dir := player_dir s;
     visited := visited s; piece_positions := piece_positions s;
     collected_pieces := collected_pieces s;
     pitfall_positions := pitfall_positions s;
     revealed_pitfalls := revealed_pitfalls s; death_count := death_count s;
     num_pitfalls := num_pitfalls s; screen_state := screen_state s;
     flash_timer := flash_timer s; piece_timer := piece_timer s;
     piece_origin := piece_origin s; win_angle := win_angle s;
     win_stars := win_stars s; star_spawn_timer := star_spawn_timer s |}.

Definition set_player_dir (v : Z) (s : GameState) : GameState :=
  {| player_x := player_x s; player_y := player_y s; player_dir := v;
     visited := visited s; piece_positions := piece_positions s;
     collected_pieces := collected_pieces s;
     pitfall_positions := pitfall_positions s;
     revealed_pitfalls := revealed_pitfalls s; death_count := death_count s;
     num_pitfalls := num_pitfalls s; screen_state := screen_state s;
     flash_timer := flash_timer s; piece_timer := piece_timer s;
     piece_origin := piece_origin s; win_angle := win_angle s;
     win_stars := win_stars s; star_spawn_timer := star_spawn_timer s |}.

Definition set_visited (v : gset cell) (s : GameState) : GameState :=
  {| player_x := player_x s; player_y := player_y s; player_dir := player_dir s;
     visited := v; piece_positions := piece_positions s;
     collected_pieces := collected_pieces s;
     pitfall_positions := pitfall_positions s;
     revealed_pitfalls := revealed_pitfalls s; death_count := death_count s;
     num_pitfalls := num_pitfalls s; screen_state := screen_state s;
     flash_timer := flash_timer s; piece_timer := piece_timer s;
     piece_origin := piece_origin s; win_angle := win_angle s;
     win_stars := win_stars s; star_spawn_timer := star_spawn_timer s |}.

Definition set_piece_positions (v : list cell) (s : GameState) : GameState :=
  {| player_x := player_x s; player_y := player_y s; player_dir := player_dir s;
     visited := visited s; piece_positions := v;
     collected_pieces := collected_pieces s;
     pitfall_positions := pitfall_positions s;
     revealed_pitfalls := revealed_pitfalls s; death_count := death_count s;
     num_pitfalls := num_pitfalls s; screen_state := screen_state s;
     flash_timer := flash_timer s; piece_timer := piece_timer s;
     piece_origin := piece_origin s; win_angle := win_angle s;
     win_stars := win_stars s; star_spawn_timer := star_spawn_timer s |}.

Definition set_collected_pieces (v : gset cell) (s : GameState) : GameState :=
  {| player_x := player_x s; player_y := player_y s; player_dir := player_dir s;
     visited := visited s; piece_positions := piece_positions s;
     collected_pieces := v; pitfall_positions := pitfall_positions s;
     revealed_pitfalls := revealed_pitfalls s; death_count := death_count s;
     num_pitfalls := num_pitfalls s; screen_state := screen_state s;
     flash_timer := flash_timer s; piece_timer := piece_timer s;
     piece_origin := piece_origin s; win_angle := win_angle s;
     win_stars := win_stars s; star_spawn_timer := star_spawn_timer s |}.

Definition set_pitfall_positions (v : gset cell) (s : GameState) : GameState :=
  {| player_x := player_x s; player_y := player_y s; player_dir := player_dir s;
     visited := visited s; piece_positions := piece_positions s;
     collected_pieces := collected_pieces s; pitfall_positions := v;
     revealed_pitfalls := revealed_pitfalls s; death_count := death_count s;
     num_pitfalls := num_pitfalls s; screen_state := screen_state s;
     flash_timer := flash_timer s; piece_timer := piece_timer s;
     piece_origin := piece_origin s; win_angle := win_angle s;
     win_stars := win_stars s; star_spawn_timer := star_spawn_timer s |}.

Definition set_revealed_pitfalls (v : gset cell) (s : GameState) : GameState :=
  {| player_x := player_x s; player_y := player_y s; player_dir := player_dir s;
     visited := visited s; piece_positions := piece_positions s;
     collected_pieces := collected_pieces s;
     pitfall_positions := pitfall_positions s; revealed_pitfalls := v;
     death_count := death_count s; num_pitfalls := num_pitfalls s;
     screen_state := screen_state s; flash_timer := flash_timer s;
     piece_timer := piece_timer s; piece_origin := piece_origin s;
     win_angle := win_angle s; win_stars := win_stars s;
     star_spawn_timer := star_spawn_timer s |}.

Definition set_death_count (v : Z) (s : GameState) : GameState :=
  {| player_x := player_x s; player_y := player_y s; player_dir := player_dir s;
     visited := visited s; piece_positions := piece_positions s;
     collected_pieces := collected_pieces s;
     pitfall_positions := pitfall_positions s;
     revealed_pitfalls := revealed_pitfalls s; death_count := v;
     num_pitfalls := num_pitfalls s; screen_state := screen_state s;
     flash_timer := flash_timer s; piece_timer := piece_timer s;
     piece_origin := piece_origin s; win_angle := win_angle s;
     win_stars := win_stars s; star_spawn_timer := star_spawn_timer s |}.

Definition set_screen_state (v : screen) (s : GameState) : GameState :=
  {| player_x := player_x s; player_y := player_y s; player_dir := player_dir s;
     visited := visited s; piece_positions := piece_positions s;
     collected_pieces := collected_pieces s;
     pitfall_positions := pitfall_positions s;
     revealed_pitfalls := revealed_pitfalls s; death_count := death_count s;
     num_pitfalls := num_pitfalls s; screen_state := v;
     flash_timer := flash_timer s; piece_timer := piece_timer s;
     piece_origin := piece_origin s; win_angle := win_angle s;
     win_stars := win_stars s; star_spawn_timer := star_spawn_timer s |}.

Definition set_flash_timer (v : Z) (s : GameState) : GameState :=
  {| player_x := player_x s; player_y := player_y s; player_dir := player_dir s;
     visited := visited s; piece_positions := piece_positions s;
     collected_pieces := collected_pieces s;
     pitfall_positions := pitfall_positions s;
     revealed_pitfalls := revealed_pitfalls s; death_count := death_count s;
     num_pitfalls := num_pitfalls s; screen_state := screen_state s;
     flash_timer := v; piece_timer := piece_timer s;
     piece_origin := piece_origin s; win_angle := win_angle s;
     win_stars := win_stars s; star_spawn_timer := star_spawn_timer s |}.

Definition set_piece_timer (v : Z) (s : GameState) : GameState :=
  {| player_x := player_x s; player_y := player_y s; player_dir := player_dir s;
     visited := visited s; piece_positions := piece_positions s;
     collected_pieces := collected_pieces s;
     pitfall_positions := pitfall_positions s;
     revealed_pitfalls := revealed_pitfalls s; death_count := death_count s;
     num_pitfalls := num_pitfalls s; screen_state := screen_state s;
     flash_timer := flash_timer s; piece_timer := v;
     piece_origin := piece_origin s; win_angle := win_angle s;
     win_stars := win_stars s; star_spawn_timer := star_spawn_timer s |}.

Definition set_piece_origin (v : cell) (s : GameState) : GameState :=
  {| player_x := player_x s; player_y := player_y s; player_dir := player_dir s;
     visited := visited s; piece_positions := piece_positions s;
     collected_pieces := collected_pieces s;
     pitfall_positions := pitfall_positions s;
     revealed_pitfalls := revealed_pitfalls s; death_count := death_count s;
     num_pitfalls := num_pitfalls s; screen_state := screen_state s;
     flash_timer := flash_timer s; piece_timer := piece_timer s;
     piece_origin := v; win_angle := win_angle s; win_stars := win_stars s;
     star_spawn_timer := star_spawn_timer s |}.

Definition set_win_angle (v : float) (s : GameState) : GameState :=
  {| player_x := player_x s; player_y := player_y s; player_dir := player_dir s;
     visited := visited s; piece_positions := piece_positions s;
     collected_pieces := collected_pieces s;
     pitfall_positions := pitfall_positions s;
     revealed_pitfalls := revealed_pitfalls s; death_count := death_count s;
     num_pitfalls := num_pitfalls s; screen_state := screen_state s;
     flash_timer := flash_timer s; piece_timer := piece_timer s;
     piece_origin := piece_origin s; win_angle := v; win_stars := win_stars s;
     star_spawn_timer := star_spawn_timer s |}.

Definition set_win_stars (v : list Star.t) (s : GameState) : GameState :=
  {| player_x := player_x s; player_y := player_y s; player_dir := player_dir s;
     visited := visited s; piece_positions := piece_positions s;
     collected_pieces := collected_pieces s;
     pitfall_positions := pitfall_positions s;
     revealed_pitfalls := revealed_pitfalls s; death_count := death_count s;
     num_pitfalls := num_pitfalls s; screen_state := screen_state s;
     flash_timer := flash_timer s; piece_timer := piece_timer s;
     piece_origin := piece_origin s; win_angle := win_angle s; win_stars := v;
     star_spawn_timer := star_spawn_timer s |}.

Definition set_star_spawn_timer (v : Z) (s : GameState) : GameState :=
  {| player_x := player_x s; player_y := player_y s; player_dir := player_dir s;
     visited := visited s; piece_positions := piece_positions s;
     collected_pieces := collected_pieces s;
     pitfall_positions := pitfall_positions s;
     revealed_pitfalls := revealed_pitfalls s; death_count := death_count s;
     num_pitfalls := num_pitfalls s; screen_state := screen_state s;
     flash_timer := flash_timer s; piece_timer := piece_timer s;
     piece_origin := piece_origin s; win_angle := win_angle s;
     win_stars := win_stars s; star_spawn_timer := v |}.

(** ** Game setup, reset and logic *)

Section Game.
Context {R : Type} (lib : Library R).

(** [make_stars(cx, cy, count)]: the draws happen in the order in which
    Python evaluates them. *)
Fixpoint make_stars (cx cy : Z) (count : nat) : Rand R (list Star.t) :=
  match count with
  | O => mret []
  | S count' =>
      a ← uniform lib 0%float (2 * pi lib)%float;
      sp ← uniform lib 1.0%float 4.5%float;
      decay ← uniform lib 0.008%float 0.022%float;
      size ← randint lib 2 5;
      color ← choice lib [C_GOLD_BRIGHT; C_GOLD_MID; C_GOLD_SHEEN;
                      (255, 255, 200); (255, 200, 80)];
      stars ← make_stars cx cy count';
      mret ({| Star.x := Int cx; Star.y := Int cy;
               Star.vx := (cos lib a * sp)%float;
               Star.vy := (sin lib a * sp)%float;
               Star.life := 1.0%float; Star.decay := decay;
               Star.size := size; Star.color := color |} :: stars)
  end.

Definition new_game (n_pitfalls : Z) : Rand R GameState :=
  '(pieces, pitfalls) ← place_items lib n_pitfalls;
  mret {| player_x := START_POS.1; player_y := START_POS.2; player_dir := 1;
          visited := {[START_POS]};
          piece_positions := pieces; collected_pieces := ∅;
          pitfall_positions := pitfalls; revealed_pitfalls := ∅;
          death_count := 0; num_pitfalls := n_pitfalls;
          screen_state := Playing;
          flash_timer := 0; piece_timer := 0; piece_origin := (0, 0);
          win_angle := 0.0%float; win_stars := []; star_spawn_timer := 0 |}.

Definition reset_game (state : GameState) : Rand R GameState :=
  '(pieces, pitfalls) ← place_items lib (num_pitfalls state);
  let state := set_player_x START_POS.1 state in
  let state := set_player_y START_POS.2 state in
  let state := set_player_dir 1 state in
  let state := set_visited {[START_POS]} state in
  let state := set_piece_positions pieces state in
  let state := set_collected_pieces ∅ state in
  let state := set_pitfall_positions pitfalls state in
  let state := set_revealed_pitfalls ∅ state in
  let state := set_death_count 0 state in
  let state := set_screen_state Playing state in
  let state := set_flash_timer 0 state in
  let state := set_piece_timer 0 state in
  let state := set_piece_origin (0, 0) state in
  let state := set_win_angle 0.0%float state in
  let state := set_win_stars [] state in
  let state := set_star_spawn_timer 0 state in
  mret state.

Definition handle_pitfall (state : GameState) : GameState :=
  let state := set_death_count (death_count state + 1) state in
  let state :=
    set_revealed_pitfalls
      ({[(player_x state, player_y state)]} ∪ revealed_pitfalls state) state in
  let state := set_player_x START_POS.1 state in
  let state := set_player_y START_POS.2 state in
  let state := set_visited ({[START_POS]} ∪ visited state) state in
  let state := set_screen_state Flash state in
  let state := set_flash_timer FLASH_DURATION state in
  state.

Definition handle_keydown (key : key) (state : GameState) : Rand R GameState :=
  if bool_decide (screen_state state ∈ [Win; Flash; Piece]) then
    if bool_decide (screen_state state = Win) && bool_decide (key ∈ [K_RETURN; K_SPACE])
    then reset_game state
    else mret state
  else
    let '(dx, dy, state) :=
      match key with
      | K_UP => (0, -1, set_player_dir 0 state)
      | K_DOWN => (0, 1, set_player_dir 1 state)
      | K_LEFT => (-1, 0, set_player_dir 2 state)
      | K_RIGHT => (1, 0, set_player_dir 3 state)
      | _ => (0, 0, state)
      end in
    if (dx =? 0) && (dy =? 0) then mret state
    else
      let new_x := player_x state + dx in
      let new_y := player_y state + dy in
      if negb ((0 <=? new_x) && (new_x <? COLS) && (0 <=? new_y) && (new_y <? ROWS))
      then mret state
      else
        let state := set_player_x new_x state in
        let state := set_player_y new_y state in
        let pos := (new_x, new_y) in
        let state := set_visited ({[pos]} ∪ visited state) state in
        if bool_decide (pos ∈ pitfall_positions state) then
          mret (handle_pitfall state)
        else if bool_decide (pos ∈ piece_positions state)
                && bool_decide (pos ∉ collected_pieces state) then
          let state := set_collected_pieces ({[pos]} ∪ collected_pieces state) state in
          let state := set_piece_origin pos state in
          let state := set_piece_timer PIECE_DURATION state in
          let state := set_screen_state Piece state in
          if Z.of_nat (size (collected_pieces state)) =? NUM_PIECES then
            stars ← make_stars (new_x * TILE + TILE `div` 2)
                               (HUD_H + new_y * TILE + TILE `div` 2) 40;
            let state := set_win_stars stars state in
            let state := set_win_angle 0.0%float state in
            let state := set_screen_state Win state in
            mret state
          else mret state
        else mret state.

(** The per-frame update of the main loop. *)
Definition tick (gs : GameState) : Rand R GameState :=
  match screen_state gs with
  | Flash =>
      let gs := set_flash_timer (flash_timer gs - 1) gs in
      if flash_timer gs <=? 0 then mret (set_screen_state Playing gs) else mret gs
  | Piece =>
      let gs := set_piece_timer (piece_timer gs - 1) gs in
      if piece_timer gs <=? 0
      then mret (set_piece_origin (0, 0) (set_screen_state Playing gs))
      else mret gs
  | Win =>
      let gs := set_win_angle (win_angle gs + 0.03)%float gs in
      let gs := set_win_stars (update_stars (win_stars gs)) gs in
      let gs := set_star_spawn_timer (star_spawn_timer gs - 1) gs in
      if star_spawn_timer gs <=? 0 then
        stars ← make_stars (WIN_W `div` 2) (HUD_H + (WIN_H - HUD_H) `div` 2) 8;
        let gs := set_win_stars (win_stars gs ++ stars) gs in
        let gs := set_star_spawn_timer 30 gs in
        mret gs
      else mret gs
  | Playing => mret gs
  end.

(** What reaches the state machine in one frame. *)
Inductive event : Type :=
| KeyDown (k : key)
| Tick.

Definition game_step (ev : event) (state : GameState) : Rand R GameState :=
  match ev with
  | KeyDown k => handle_keydown k state
  | Tick => tick state
  end.

Fixpoint run (evs : list event) (state : GameState) : Rand R GameState :=
  match evs with
  | [] => mret state
  | ev :: rest => state' ← game_step ev state; run rest state'
  end.
End Game.

(** ** Definitions used by the proofs *)

(** What one pass over the offsets of [c] leaves behind when it does not
    return: the cells [added] were appended to the queue and to [visited]. *)
Record scanned (goal : cell) (blocked : gset cell) (c : cell) (dirs : list (Z * Z))
    (v : gset cell) (q : list cell) (v' : gset cell) (q' : list cell)
    (added : list cell) : Prop := {
  scanned_no_goal : ∀ d, d ∈ dirs → step c d ≠ goal;
  scanned_queue : q' = q ++ added;
  scanned_visited : v' = list_to_set added ∪ v;
  scanned_NoDup : NoDup added;
  scanned_fresh : ∀ x, x ∈ added → x ∉ v;
  scanned_open : ∀ x, x ∈ added → in_grid x = true ∧ x ∉ blocked;
  scanned_from : ∀ x, x ∈ added → ∃ d, d ∈ dirs ∧ x = step c d;
  scanned_closed : ∀ d, d ∈ dirs → in_grid (step c d) = true →
                     step c d ∉ blocked → step c d ∈ v'
}.

(** Everything the search can ever put into [visited]. *)
Definition universe (start : cell) : gset cell := {[start]} ∪ all_cells.

(** [V] holds every valid neighbour of [x], and the goal is no neighbour
    of [x]: the state of a cell the loop has finished with. *)
Definition expanded (goal : cell) (blocked : gset cell) (V : gset cell) (x : cell) : Prop :=
  ∀ d, d ∈ DIRS →
    step x d ≠ goal ∧
    (in_grid (step x d) = true → step x d ∉ blocked → step x d ∈ V).

(** The library's shuffle rearranges its argument. *)
Definition shuffle_permutes {R : Type} (lib : Library R) : Prop :=
  ∀ (l : list cell) (r : R), (shuffle lib l r).1 ≡ₚ l.

(** The player's cell. *)
Definition position (s : GameState) : cell := (player_x s, player_y s).

(** What a directional key stands for in [handle_keydown]: the offset
    [(dx, dy)] and the facing it sets. *)
Definition arrow (k : key) : option (Z * Z * Z) :=
  match k with
  | K_UP => Some (0, -1, 0)
  | K_DOWN => Some (0, 1, 1)
  | K_LEFT => Some (-1, 0, 2)
  | K_RIGHT => Some (1, 0, 3)
  | _ => None
  end.

(** The cell a move with offset [(dx, dy)] asks for. *)
Definition candidate (a : Z * Z * Z) (s : GameState) : cell :=
  (player_x s + a.1.1, player_y s + a.1.2).

(** The key press that starts a fresh map from the win screen. *)
Definition is_reset (ev : event) (s : GameState) : bool :=
  match ev with
  | KeyDown k =>
      bool_decide (screen_state s = Win) && bool_decide (k ∈ [K_RETURN; K_SPACE])
  | Tick => false
  end.

(** A sample library for running the program: the state of the random
    source is a counter, a shuffle rotates the list by it, and a draw
    returns its lower bound (or the element the counter points at). *)
Definition sample_lib : Library nat := {|
  shuffle l := λ r, (rotate r l, S r);
  uniform a b := λ r, (a, S r);
  randint a b := λ r, (a, S r);
  choice l := λ r, (default (0, 0, 0) (l !! (r `mod` length l)%nat), S r);
  cos := λ _, 1%float;
  sin := λ _, 0%float;
  pi := 3.141592653589793%float
|}.

(** The start cell and the player's cell are visited. *)
Definition covers (s : GameState) : Prop :=
  START_POS ∈ visited s ∧ position s ∈ visited s.

(** The invariants of the data model that the state machine relies on. *)
Definition well_formed (s : GameState) : Prop :=
  NoDup (piece_positions s) ∧
  length (piece_positions s) = 5%nat ∧
  collected_pieces s ⊆ list_to_set (piece_positions s) ∧
  (∀ c, c ∈ pitfall_positions s → in_grid c = true) ∧
  revealed_pitfalls s ⊆ pitfall_positions s.

(** A move that changes nothing but, possibly, the facing. *)
Definition same_but_facing (s s' : GameState) : Prop :=
  position s' = position s ∧
  visited s' = visited s ∧
  collected_pieces s' = collected_pieces s ∧
  revealed_pitfalls s' = revealed_pitfalls s ∧
  death_count s' = death_count s ∧
  screen_state s' = screen_state s.

(** The screen centre of a grid cell, where [handle_keydown] puts the
    winning burst of stars. *)
Definition screen_centre (pos : cell) : Z * Z :=
  (pos.1 * TILE + TILE `div` 2, HUD_H + pos.2 * TILE + TILE `div` 2).

(** *** Sample sessions

    States the program reaches with the sample library on a map with 20
    requested pitfalls, for use as concrete inputs. *)

Definition keys (n : nat) (k : key) : list event := replicate n (KeyDown k).

Definition sample_game : GameState * nat :=
  Eval vm_compute in new_game sample_lib 20 2%nat.

(** Seven steps to the left: at the west wall, below the pitfall (0, 6). *)
Definition at_west_wall : GameState * nat :=
  Eval vm_compute in run sample_lib (keys 7 K_LEFT) sample_game.1 sample_game.2.

(** Fell into (0, 6), waited out the flash, and walked back below it. *)
Definition below_revealed_pitfall : GameState * nat :=
  Eval vm_compute in
    run sample_lib ([KeyDown K_UP] ++ replicate 75 Tick ++ keys 7 K_LEFT)
      at_west_wall.1 at_west_wall.2.

(** In the south-east corner of the grid. *)
Definition in_corner : GameState * nat :=
  Eval vm_compute in
    run sample_lib (keys 7 K_RIGHT ++ keys 7 K_DOWN) sample_game.1 sample_game.2.

(** Four pieces collected without touching a pitfall, standing on the
    fourth, the fifth one cell below. *)
Definition before_last_piece : GameState * nat :=
  Eval vm_compute in
    run sample_lib
      (keys 6 K_LEFT ++ keys 2 K_UP ++ keys 1 K_LEFT ++ replicate 120 Tick ++
       keys 1 K_RIGHT ++ keys 2 K_UP ++ keys 1 K_LEFT ++ replicate 120 Tick ++
       keys 1 K_RIGHT ++ keys 6 K_DOWN ++ keys 1 K_LEFT ++ replicate 120 Tick ++
       keys 1 K_RIGHT ++ keys 4 K_DOWN ++ keys 1 K_LEFT ++ replicate 120 Tick)
      sample_game.1 sample_game.2.

(** * Proofs *)

Example bfs_open_grid : _bfs_reachable START_POS (0, 14) ∅ = true.
Proof. vm_compute. reflexivity. Qed.

Example bfs_walled_in :
  _bfs_reachable START_POS (0, 0) {[ (0, 1); (1, 1); (2, 0) ]} = false.
Proof. vm_compute. reflexivity. Qed.

Example place_items_sample :
  (place_items sample_lib 3 2%nat).1 =
  ([(0, 13); (0, 9); (0, 5); (0, 3); (0, 14)], {[ (0, 6); (0, 12); (0, 8) ]}).
Proof. vm_compute. reflexivity. Qed.

(** ** Facts about the grid *)

Lemma elem_of_all_cells (c : cell) : c ∈ all_cells ↔ in_grid c = true.
Proof.
  unfold all_cells, in_grid. rewrite elem_of_list_to_set, list_elem_of_bind.
  destruct c as [x y]; cbn [fst snd]. split.
  - intros (a & Hy & Ha). apply list_elem_of_bind in Hy as (b & Hb & Hy).
    apply list_elem_of_singleton in Hb. injection Hb as -> ->.
    apply elem_of_seqZ in Ha, Hy. unfold COLS, ROWS in *.
    repeat (apply andb_true_intro; split); lia.
  - intros H. repeat (apply andb_prop in H as [H ?]).
    exists x. split.
    + apply list_elem_of_bind. exists y. split; [set_solver |].
      apply elem_of_seqZ. lia.
    + apply elem_of_seqZ. lia.
Qed.

Lemma size_all_cells : size all_cells = 225%nat.
Proof. vm_compute. reflexivity. Qed.

Lemma in_grid_START_POS : in_grid START_POS = true.
Proof. reflexivity. Qed.

(** From here on the grid is used through the two lemmas above only. *)
#[local] Opaque all_cells.

(** ** The inner loop *)

Lemma scan_dirs_spec goal blocked c dirs v q :
  match scan_dirs goal blocked c dirs v q with
  | Found => ∃ d, d ∈ dirs ∧ step c d = goal
  | Scanned v' q' => ∃ added, scanned goal blocked c dirs v q v' q' added
  end.
Proof.
  revert v q. induction dirs as [| d rest IH]; intros v q; simpl.
  - exists []. constructor;
      first [ by rewrite app_nil_r | by apply NoDup_nil
            | intros ? Hx; by inversion Hx | set_solver ].
  - destruct (decide (step c d = goal)) as [Hg | Hg].
    { exists d. split; [left | done]. }
    destruct (in_grid (step c d) && bool_decide (step c d ∉ blocked)
              && bool_decide (step c d ∉ v)) eqn:Hok.
    + apply andb_prop in Hok as [Hok Hv]. apply andb_prop in Hok as [Hin Hb].
      apply bool_decide_eq_true in Hv, Hb.
      specialize (IH ({[step c d]} ∪ v) (q ++ [step c d])).
      destruct (scan_dirs goal blocked c rest _ _) as [| v' q'].
      { destruct IH as (d' & Hd' & E). exists d'. split; [by right | done]. }
      destruct IH as (added & [Hng Hq Hv' Hnd Hfr Hop Hsrc Hcl]).
      exists (step c d :: added). constructor.
      * intros d' Hd'. apply elem_of_cons in Hd' as [-> | Hd']; auto.
      * rewrite Hq, <- app_assoc. reflexivity.
      * rewrite Hv'. set_solver.
      * constructor; [| done]. intros Hx. apply Hfr in Hx. set_solver.
      * intros x Hx. apply elem_of_cons in Hx as [-> | Hx]; [done |].
        apply Hfr in Hx. set_solver.
      * intros x Hx. apply elem_of_cons in Hx as [-> | Hx]; [done | by apply Hop].
      * intros x Hx. apply elem_of_cons in Hx as [-> | Hx].
        -- exists d. split; [left | done].
        -- apply Hsrc in Hx as (d' & Hd' & E). exists d'. split; [by right | done].
      * intros d' Hd' Hin' Hb'. apply elem_of_cons in Hd' as [-> | Hd'].
        -- rewrite Hv'. set_solver.
        -- by apply Hcl.
    + specialize (IH v q).
      destruct (scan_dirs goal blocked c rest v q) as [| v' q'].
      { destruct IH as (d' & Hd' & E). exists d'. split; [by right | done]. }
      destruct IH as (added & [Hng Hq Hv' Hnd Hfr Hop Hsrc Hcl]).
      exists added. constructor; try done.
      * intros d' Hd'. apply elem_of_cons in Hd' as [-> | Hd']; auto.
      * intros x Hx. apply Hsrc in Hx as (d' & Hd' & E).
        exists d'. split; [by right | done].
      * intros d' Hd' Hin' Hb'. apply elem_of_cons in Hd' as [-> | Hd']; [| by apply Hcl].
        rewrite Hv'. apply elem_of_union_r.
        destruct (decide (step c d ∈ v)) as [| Hnv]; [done |]. exfalso.
        rewrite Hin' in Hok. simpl in Hok.
        rewrite (bool_decide_eq_true_2 _ Hb') in Hok. simpl in Hok.
        by rewrite (bool_decide_eq_true_2 _ Hnv) in Hok.
Qed.

(** ** The search terminates within its fuel *)

Lemma size_add_le (G : gset cell) (x : cell) : (size ({[x]} ∪ G) ≤ S (size G))%nat.
Proof.
  rewrite size_union_alt, size_singleton.
  assert (size (G ∖ {[x]}) ≤ size G)%nat; [| lia].
  apply subseteq_size. intros y. rewrite elem_of_difference. tauto.
Qed.

Lemma size_remove (G : gset cell) (x : cell) :
  x ∈ G → (size (G ∖ {[x]}) + 1 = size G)%nat.
Proof.
  intros Hx. rewrite size_difference, size_singleton.
  - assert (size G ≠ 0%nat); [| lia]. apply size_non_empty_iff. set_solver.
  - by apply singleton_subseteq_l.
Qed.

Lemma size_universe start : (size (universe start) ≤ BFS_FUEL)%nat.
Proof.
  unfold universe. pose proof (size_add_le all_cells start) as Hle.
  rewrite size_all_cells in Hle.
  assert (BFS_FUEL = 226%nat) as -> by reflexivity. exact Hle.
Qed.

Lemma size_unvisited_scanned (U v : gset cell) (added : list cell) :
  NoDup added →
  (∀ x, x ∈ added → x ∉ v) →
  (∀ x, x ∈ added → x ∈ U) →
  (size (U ∖ (list_to_set added ∪ v)) + length added = size (U ∖ v))%nat.
Proof.
  intros Hnd Hfr HU.
  assert (U ∖ v = (U ∖ (list_to_set added ∪ v)) ∪ list_to_set added) as ->.
  { apply set_eq. intros x. rewrite !elem_of_union, !elem_of_difference,
      elem_of_union, elem_of_list_to_set.
    split.
    - intros [Hx Hv]. destruct (decide (x ∈ added)); [by right | left].
      split; [done |]. by intros [? | ?].
    - intros [[Hx Hn] | Hx]; [| by split; [apply HU | apply Hfr]].
      split; [done |]. intros ?. apply Hn. by right. }
  rewrite (size_union (U ∖ (list_to_set added ∪ v)) (list_to_set added)).
  - by rewrite size_list_to_set.
  - intros x. rewrite elem_of_difference, elem_of_union. tauto.
Qed.

Lemma bfs_loop_terminates (U : gset cell) goal blocked fuel v q :
  (∀ x, in_grid x = true → x ∈ U) →
  v ⊆ U →
  (size (U ∖ v) + length q ≤ fuel)%nat →
  is_Some (bfs_loop fuel goal blocked v q).
Proof.
  intros HgU. revert v q. induction fuel as [| fuel IH]; intros v q Hv Hsz.
  - destruct q; [by eexists | simpl in Hsz; lia].
  - destruct q as [| c q]; [by eexists |]. cbn [bfs_loop].
    pose proof (scan_dirs_spec goal blocked c DIRS v q) as Hscan.
    destruct (scan_dirs goal blocked c DIRS v q) as [| v' q']; [by eexists |].
    destruct Hscan as (added & [_ -> -> Hnd Hfr Hop _ _]).
    assert (∀ x, x ∈ added → x ∈ U) as HU.
    { intros x Hx. by apply HgU, Hop. }
    apply IH.
    + intros x. rewrite elem_of_union, elem_of_list_to_set. intros [? | ?]; auto.
    + pose proof (size_unvisited_scanned U v added Hnd Hfr HU).
      rewrite length_app. simpl in Hsz. lia.
Qed.

Lemma bfs_search_total start goal blocked :
  is_Some (bfs_search start goal blocked).
Proof.
  pose proof (size_universe start) as Hsz. revert Hsz.
  unfold bfs_search. generalize BFS_FUEL as fuel.
  assert (∀ x, in_grid x = true → x ∈ universe start) as HgU.
  { intros x Hx. by apply elem_of_union_r, elem_of_all_cells. }
  assert (start ∈ universe start) as Hs by apply elem_of_union_l, elem_of_singleton_2, eq_refl.
  revert HgU Hs. generalize (universe start) as U. intros U HgU Hs fuel Hsz.
  apply (bfs_loop_terminates U); [done | by apply singleton_subseteq_l |].
  pose proof (size_remove U start Hs). change (length [start]) with 1%nat. lia.
Qed.

(** ** What the search answers *)

Lemma bfs_loop_true_discovered start goal blocked fuel v q :
  (∀ x, x ∈ q → explored blocked start x) →
  bfs_loop fuel goal blocked v q = Some true →
  discovered blocked start goal.
Proof.
  revert v q. induction fuel as [| fuel IH]; intros v q Hq Hrun.
  - by destruct q.
  - destruct q as [| c q]; [done |]. cbn [bfs_loop] in Hrun.
    pose proof (scan_dirs_spec goal blocked c DIRS v q) as Hscan.
    destruct (scan_dirs goal blocked c DIRS v q) as [| v' q'].
    + destruct Hscan as (d & Hd & E). exists c, d. split_and!; [| done..].
      apply Hq. left.
    + destruct Hscan as (added & [_ -> -> _ _ Hop Hsrc _]).
      eapply IH; [| exact Hrun]. intros x Hx.
      apply elem_of_app in Hx as [Hx | Hx]; [apply Hq; by right |].
      destruct (Hsrc x Hx) as (d & Hd & ->). destruct (Hop _ Hx).
      apply explored_step; [apply Hq; left | done..].
Qed.

Lemma expanded_mono (goal : cell) (blocked V V' : gset cell) (x : cell) :
  V ⊆ V' → expanded goal blocked V x → expanded goal blocked V' x.
Proof. intros HV Hx d Hd. destruct (Hx d Hd). split; auto. Qed.

Lemma bfs_loop_false_closed (goal : cell) (blocked : gset cell) fuel v q :
  (∀ x, x ∈ v → x ∉ q → expanded goal blocked v x) →
  bfs_loop fuel goal blocked v q = Some false →
  ∃ V : gset cell, v ⊆ V ∧ ∀ x, x ∈ V → expanded goal blocked V x.
Proof.
  revert v q. induction fuel as [| fuel IH]; intros v q Hinv Hrun.
  - destruct q; [| done]. exists v. split; [done |].
    intros x Hx. apply Hinv; [done | by inversion 1].
  - destruct q as [| c q].
    { exists v. split; [done |]. intros x Hx. apply Hinv; [done | by inversion 1]. }
    cbn [bfs_loop] in Hrun.
    pose proof (scan_dirs_spec goal blocked c DIRS v q) as Hscan.
    destruct (scan_dirs goal blocked c DIRS v q) as [| v' q']; [done |].
    destruct Hscan as (added & [Hng Hq Hv _ _ _ _ Hcl]).
    destruct (IH v' q') as (V & HV & Hclosed); [| done |].
    + intros x Hx Hnq. subst q'.
      rewrite elem_of_app in Hnq.
      rewrite Hv, elem_of_union, elem_of_list_to_set in Hx.
      destruct Hx as [Hx | Hx]; [tauto |].
      destruct (decide (x = c)) as [-> | Hne].
      * intros d Hd. split; [by apply Hng | by apply Hcl].
      * apply (expanded_mono _ _ v); [rewrite Hv; set_solver |].
        apply Hinv; [done |]. rewrite elem_of_cons. tauto.
    + exists V. split; [| done]. rewrite Hv in HV. set_solver.
Qed.

Lemma explored_in_closed (goal : cell) (blocked : gset cell) (start : cell)
    (V : gset cell) (c : cell) :
  start ∈ V →
  (∀ x, x ∈ V → expanded goal blocked V x) →
  explored blocked start c → c ∈ V.
Proof.
  intros Hs Hcl. induction 1 as [| c d _ IH Hd Hin Hb]; [done |].
  by apply (Hcl c IH d Hd).
Qed.

Lemma bfs_search_true start goal blocked :
  bfs_search start goal blocked = Some true → discovered blocked start goal.
Proof.
  apply bfs_loop_true_discovered. intros x Hx.
  apply list_elem_of_singleton in Hx as ->. constructor.
Qed.

Lemma bfs_search_false start goal blocked :
  bfs_search start goal blocked = Some false → ¬ discovered blocked start goal.
Proof.
  intros Hrun (c & d & Hc & Hd & E).
  apply bfs_loop_false_closed in Hrun as (V & HV & Hcl).
  - assert (c ∈ V) as HcV by (apply (explored_in_closed goal blocked start); set_solver).
    by destruct (Hcl c HcV d Hd).
  - intros x Hx Hnq. apply elem_of_singleton in Hx as ->.
    exfalso. apply Hnq. left.
Qed.

Lemma bfs_reachable_iff start goal blocked :
  _bfs_reachable start goal blocked = true ↔
  start = goal ∨ discovered blocked start goal.
Proof.
  unfold _bfs_reachable. destruct (decide (start = goal)) as [-> | Hne].
  { split; [by left | done]. }
  destruct (bfs_search_total start goal blocked) as [b Hb]. rewrite Hb. simpl.
  destruct b.
  - split; [| done]. intros _. right. by apply bfs_search_true.
  - split; [done |]. intros [? | Hd]; [done |].
    by apply bfs_search_false in Hb.
Qed.

(** *** The piece loop *)

Lemma bfs_reachable_empty_grid (c : cell) :
  in_grid c = true → _bfs_reachable START_POS c ∅ = true.
Proof.
  intros Hc. apply elem_of_all_cells, elem_of_elements in Hc.
  assert (forallb (λ c, _bfs_reachable START_POS c ∅) (elements all_cells) = true)
    as Hall by (vm_compute; reflexivity).
  rewrite forallb_forall in Hall. exact (Hall c (proj1 (list_elem_of_In _ _) Hc)).
Qed.

Lemma place_pieces_spec pool pieces forbidden :
  ∃ new,
    place_pieces pool pieces forbidden = (pieces ++ new, list_to_set new ∪ forbidden) ∧
    new `sublist_of` pool ∧
    (∀ c, c ∈ new → _bfs_reachable START_POS c ∅ = true).
Proof.
  revert pieces forbidden. induction pool as [| cell rest IH]; intros pieces forbidden.
  - exists []. simpl. rewrite app_nil_r, (left_id_L ∅ (∪)).
    split_and!; [done.. |]. by inversion 1.
  - simpl. case_bool_decide.
    { exists []. rewrite app_nil_r. simpl. rewrite (left_id_L ∅ (∪)).
      split_and!; [done | apply sublist_nil_l | by inversion 1]. }
    destruct (_bfs_reachable START_POS cell ∅) eqn:Hreach.
    + destruct (IH (pieces ++ [cell]) ({[cell]} ∪ forbidden)) as (new & -> & Hsub & Hr).
      exists (cell :: new). split_and!.
      * rewrite <- app_assoc. simpl. f_equal. set_solver.
      * by apply sublist_skip.
      * intros c Hc. apply elem_of_cons in Hc as [-> | Hc]; auto.
    + destruct (IH pieces forbidden) as (new & -> & Hsub & Hr).
      exists new. split_and!; [done | by apply sublist_cons | done].
Qed.

Lemma place_pieces_length pool pieces forbidden :
  (∀ c, c ∈ pool → in_grid c = true) →
  (length pieces ≤ 5)%nat →
  (5 ≤ length pieces + length pool)%nat →
  length (place_pieces pool pieces forbidden).1 = 5%nat.
Proof.
  revert pieces forbidden. induction pool as [| cell rest IH];
    intros pieces forbidden Hgrid Hle Hge; simpl in *.
  - lia.
  - unfold NUM_PIECES. case_bool_decide; simpl; [lia |].
    rewrite bfs_reachable_empty_grid by (apply Hgrid; left).
    apply IH.
    + intros c Hc. apply Hgrid. by right.
    + rewrite length_app. simpl. lia.
    + rewrite length_app. simpl. lia.
Qed.

(** *** The pitfall loop *)

Lemma place_pitfalls_subseteq (n : Z) (pieces candidates : list cell) (pitfalls : gset cell) :
  place_pitfalls n pieces candidates pitfalls ⊆ pitfalls ∪ list_to_set candidates.
Proof.
  revert pitfalls. induction candidates as [| cell rest IH]; intros pitfalls; simpl.
  - set_solver.
  - case_bool_decide; [set_solver |].
    destruct (forallb _ pieces).
    + etrans; [apply IH |]. set_solver.
    + etrans; [apply IH |]. set_solver.
Qed.

Lemma place_pitfalls_checked (n : Z) (pieces candidates : list cell) (pitfalls : gset cell) :
  (∀ p, p ∈ pieces → _bfs_reachable START_POS p pitfalls = true) →
  ∀ p, p ∈ pieces →
    _bfs_reachable START_POS p (place_pitfalls n pieces candidates pitfalls) = true.
Proof.
  revert pitfalls. induction candidates as [| cell rest IH]; intros pitfalls Hok; simpl.
  - done.
  - case_bool_decide; [done |].
    destruct (forallb _ pieces) eqn:Hall; [| by apply IH].
    apply IH. intros p Hp. rewrite forallb_forall in Hall.
    rewrite (comm_L (∪)). by apply Hall, list_elem_of_In.
Qed.

Lemma place_pitfalls_size (n : Z) (pieces candidates : list cell) (pitfalls : gset cell) :
  Z.of_nat (size pitfalls) ≤ n →
  Z.of_nat (size (place_pitfalls n pieces candidates pitfalls)) ≤ n.
Proof.
  revert pitfalls. induction candidates as [| cell rest IH]; intros pitfalls Hsz; simpl.
  - done.
  - case_bool_decide; [done |].
    destruct (forallb _ pieces); [| by apply IH].
    apply IH. pose proof (size_union_alt {[cell]} pitfalls) as Hu.
    rewrite size_singleton in Hu.
    assert (size (pitfalls ∖ {[cell]}) ≤ size pitfalls)%nat
      by (apply subseteq_size; set_solver).
    lia.
Qed.


(** *** [place_items] as a whole *)

Lemma sample_lib_shuffle_permutes : shuffle_permutes sample_lib.
Proof.
  intros l r. simpl. unfold rotate.
  rewrite Permutation_app_comm. by rewrite take_drop.
Qed.

Lemma place_items_unfold {R : Type} (lib : Library R) (n : Z) (r : R) :
  shuffle_permutes lib →
  ∃ pool pieces candidates r',
    pool ≡ₚ elements (all_cells ∖ {[START_POS]}) ∧
    pieces = (place_pieces pool [] {[START_POS]}).1 ∧
    pieces `sublist_of` pool ∧
    (∀ c, c ∈ pieces → _bfs_reachable START_POS c ∅ = true) ∧
    candidates ≡ₚ elements (all_cells ∖ (list_to_set pieces ∪ {[START_POS]})) ∧
    place_items lib n r = ((pieces, place_pitfalls n pieces candidates ∅), r').
Proof.
  intros Hsh. unfold place_items, mbind, Rand_bind, mret, Rand_ret.
  pose proof (Hsh (elements (all_cells ∖ {[START_POS]})) r) as Hpool.
  destruct (shuffle lib (elements (all_cells ∖ {[START_POS]})) r) as [pool r1].
  destruct (place_pieces_spec pool [] {[START_POS]}) as (new & Hpp & Hsub & Hreach).
  rewrite Hpp. simpl app.
  pose proof (Hsh (elements (all_cells ∖ (list_to_set new ∪ {[START_POS]}))) r1) as Hc.
  destruct (shuffle lib (elements (all_cells ∖ (list_to_set new ∪ {[START_POS]}))) r1)
    as [candidates r2].
  exists pool, new, candidates, r2. by rewrite Hpp.
Qed.

Lemma elem_of_pool (pool : list cell) (c : cell) :
  pool ≡ₚ elements (all_cells ∖ {[START_POS]}) →
  c ∈ pool → in_grid c = true ∧ c ≠ START_POS.
Proof.
  intros Hp Hc. rewrite Hp, elem_of_elements, elem_of_difference,
    elem_of_all_cells, elem_of_singleton in Hc. done.
Qed.

Lemma length_pool (pool : list cell) :
  pool ≡ₚ elements (all_cells ∖ {[START_POS]}) → length pool = 224%nat.
Proof.
  intros ->. change (size (all_cells ∖ {[START_POS]}) = 224%nat).
  pose proof (size_remove all_cells START_POS) as Hs.
  rewrite size_all_cells in Hs.
  assert (START_POS ∈ all_cells) by by apply elem_of_all_cells.
  specialize (Hs ltac:(done)). lia.
Qed.

(** C1: for every requested count (so for every [n >= 0]), in the pair
    [place_items] returns every piece is reachable from the start cell by
    moves between 4-neighbours that stay inside the grid and off the
    returned pitfalls; no piece is a pitfall; and the start cell is
    neither a pitfall nor a piece. *)
Theorem place_items_invariants {R : Type} (lib : Library R) (n : Z) (r : R) :
  shuffle_permutes lib →
  let pieces := (place_items lib n r).1.1 in
  let pitfalls := (place_items lib n r).1.2 in
  (∀ p, p ∈ pieces → explored pitfalls START_POS p) ∧
  (∀ p, p ∈ pieces → p ∉ pitfalls) ∧
  (START_POS ∉ pitfalls) ∧
  (START_POS ∉ pieces).
Proof.
  intros Hsh.
  destruct (place_items_unfold lib n r Hsh)
    as (pool & ps & cands & r' & Hpool & _ & Hsub & Hreach & Hcands & E).
  rewrite E. cbn [fst snd]. clear E.
  assert (∀ c, c ∈ ps → in_grid c = true ∧ c ≠ START_POS) as Hps.
  { intros c Hc. apply (elem_of_pool pool); [done |]. by apply (elem_of_sublist ps). }
  assert (∀ c, c ∈ place_pitfalls n ps cands ∅ → (c ∉ ps) ∧ c ≠ START_POS) as Hpf.
  { intros c Hc. apply place_pitfalls_subseteq in Hc.
    rewrite elem_of_union, elem_of_list_to_set, Hcands, elem_of_elements,
      elem_of_difference, elem_of_union, elem_of_list_to_set, elem_of_singleton in Hc.
    destruct Hc as [Hc | [_ Hc]]; [by apply not_elem_of_empty in Hc | tauto]. }
  assert (∀ p, p ∈ ps → p ∉ place_pitfalls n ps cands ∅) as Hdisj.
  { intros p Hp Hin. by destruct (Hpf p Hin). }
  split_and!.
  - intros p Hp.
    pose proof (place_pitfalls_checked n ps cands ∅ Hreach p Hp) as Hb.
    apply bfs_reachable_iff in Hb as [<- | (c & d & Hc & Hd & <-)]; [constructor |].
    apply explored_step; [done | done | by apply Hps | by apply Hdisj].
  - exact Hdisj.
  - intros Hin. by destruct (Hpf _ Hin).
  - intros Hin. by destruct (Hps _ Hin).
Qed.

Lemma place_items_invariants_witness :
  shuffle_permutes sample_lib ∧
  let pieces := (place_items sample_lib 20 0%nat).1.1 in
  let pitfalls := (place_items sample_lib 20 0%nat).1.2 in
  (∀ p, p ∈ pieces → explored pitfalls START_POS p) ∧
  (∀ p, p ∈ pieces → p ∉ pitfalls) ∧
  (START_POS ∉ pitfalls) ∧
  (START_POS ∉ pieces).
Proof.
  assert (shuffle_permutes sample_lib) as Hsh.
  { intros l r. simpl. unfold rotate.
    rewrite Permutation_app_comm. by rewrite take_drop. }
  split; [exact Hsh |].
  exact (place_items_invariants sample_lib 20 0%nat Hsh).
Defined.

Lemma size_candidates (pool pieces candidates : list cell) :
  pool ≡ₚ elements (all_cells ∖ {[START_POS]}) →
  pieces `sublist_of` pool →
  length pieces = 5%nat →
  candidates ≡ₚ elements (all_cells ∖ (list_to_set pieces ∪ {[START_POS]})) →
  size (list_to_set candidates : gset cell) = 219%nat.
Proof.
  intros Hpool Hsub Hlen Hcands.
  rewrite (list_to_set_perm_L _ _ Hcands), list_to_set_elements_L.
  assert (NoDup pieces) as Hnd.
  { apply (sublist_NoDup _ pool); [| done]. rewrite Hpool. apply NoDup_elements. }
  assert (∀ c, c ∈ pieces → in_grid c = true ∧ c ≠ START_POS) as Hps.
  { intros c Hc. apply (elem_of_pool pool); [done |]. by apply (elem_of_sublist pieces). }
  rewrite (size_difference all_cells (list_to_set pieces ∪ {[START_POS]})).
  - rewrite size_all_cells, (size_union (list_to_set pieces) {[START_POS]}),
      size_singleton, size_list_to_set, Hlen; [done.. |].
    intros x Hx ->%elem_of_singleton. apply elem_of_list_to_set, Hps in Hx. by destruct Hx.
  - intros x [Hx | ->%elem_of_singleton]%elem_of_union; apply elem_of_all_cells; [| done].
    apply elem_of_list_to_set in Hx. by apply Hps.
Qed.

(** C6: for every requested count [n >= 0], [place_items] returns exactly
    five pieces and at most [n] pitfalls, and never more than the 219 cells
    that are neither the start nor a piece (so fewer than [n] when the
    candidates run out). *)
Theorem place_items_counts {R : Type} (lib : Library R) (n : Z) (r : R) :
  shuffle_permutes lib →
  0 ≤ n →
  length (place_items lib n r).1.1 = 5%nat ∧
  Z.of_nat (size (place_items lib n r).1.2) ≤ n ∧
  (size (place_items lib n r).1.2 ≤ 219)%nat.
Proof.
  intros Hsh Hn.
  destruct (place_items_unfold lib n r Hsh)
    as (pool & ps & cands & r' & Hpool & Hps & Hsub & _ & Hcands & E).
  rewrite E. cbn [fst snd]. clear E.
  assert (length ps = 5%nat) as Hlen.
  { rewrite Hps. apply place_pieces_length.
    - intros c Hc. by apply (elem_of_pool pool).
    - simpl. lia.
    - rewrite (length_pool pool Hpool). simpl. lia. }
  split_and!.
  - exact Hlen.
  - apply place_pitfalls_size. by rewrite size_empty.
  - rewrite <- (size_candidates pool ps cands Hpool Hsub Hlen Hcands).
    apply subseteq_size. etrans; [apply place_pitfalls_subseteq |].
    by rewrite (left_id_L ∅ (∪)).
Qed.

Lemma place_items_counts_witness :
  shuffle_permutes sample_lib ∧ 0 ≤ 300 ∧
  length (place_items sample_lib 300 0%nat).1.1 = 5%nat ∧
  Z.of_nat (size (place_items sample_lib 300 0%nat).1.2) ≤ 300 ∧
  (size (place_items sample_lib 300 0%nat).1.2 ≤ 219)%nat.
Proof.
  assert (shuffle_permutes sample_lib) as Hsh.
  { intros l r. simpl. unfold rotate.
    rewrite Permutation_app_comm. by rewrite take_drop. }
  assert (0 ≤ 300) as Hn by lia.
  split; [exact Hsh |]. split; [exact Hn |].
  exact (place_items_counts sample_lib 300 0%nat Hsh Hn).
Defined.

Lemma explored_discovered (blocked : gset cell) (start goal : cell) :
  start ≠ goal →
  in_grid goal = true →
  goal ∉ blocked →
  discovered blocked start goal ↔ explored blocked start goal.
Proof.
  intros Hne Hin Hnb. split.
  - intros (c & d & Hc & Hd & <-). by apply explored_step.
  - intros Hg. inversion Hg as [| c d Hc Hd _ _ E]; [done |].
    by exists c, d.
Qed.

(** C2: [_bfs_reachable] answers true at once when the start is the goal,
    whatever is blocked.  Otherwise the search comes to an end, and it
    answers true exactly when the goal is discovered, that is, met as a
    candidate neighbour of a cell the search expands (the start, and the
    in-grid, unblocked, 4-neighbours of expanded cells); it answers false
    exactly when the search is exhausted without meeting the goal.  For a
    goal that is an unblocked grid cell this is reachability of the goal
    through in-grid, unblocked cells. *)
Theorem bfs_reachable_spec (start goal : cell) (blocked : gset cell) :
  _bfs_reachable start start blocked = true ∧
  (start ≠ goal →
     (∃ b, bfs_search start goal blocked = Some b ∧
           _bfs_reachable start goal blocked = b) ∧
     (_bfs_reachable start goal blocked = true ↔ discovered blocked start goal) ∧
     (_bfs_reachable start goal blocked = false ↔ ¬ discovered blocked start goal) ∧
     (in_grid goal = true → goal ∉ blocked →
        (_bfs_reachable start goal blocked = true ↔ explored blocked start goal))).
Proof.
  split.
  { unfold _bfs_reachable. by rewrite decide_True. }
  intros Hne.
  assert (_bfs_reachable start goal blocked = true ↔ discovered blocked start goal)
    as Hiff.
  { rewrite bfs_reachable_iff. split; [by intros [? | ?] | by right]. }
  split_and!.
  - destruct (bfs_search_total start goal blocked) as [b Hb]. exists b.
    split; [done |]. unfold _bfs_reachable. rewrite decide_False by done.
    by rewrite Hb.
  - exact Hiff.
  - rewrite <- Hiff. by destruct (_bfs_reachable start goal blocked).
  - intros Hin Hnb. by rewrite Hiff, explored_discovered.
Qed.

Lemma bfs_reachable_spec_witness :
  (7, 7) ≠ (0, 0) ∧
  _bfs_reachable (7, 7) (0, 0) {[ (0, 1); (1, 1); (2, 0) ]} = false ∧
  ¬ discovered {[ (0, 1); (1, 1); (2, 0) ]} (7, 7) (0, 0).
Proof.
  assert ((7, 7) ≠ (0, 0)) as Hne by done.
  split; [exact Hne |].
  assert (_bfs_reachable (7, 7) (0, 0) {[ (0, 1); (1, 1); (2, 0) ]} = false) as Hb
    by (vm_compute; reflexivity).
  split; [exact Hb |].
  destruct (bfs_reachable_spec (7, 7) (0, 0) {[ (0, 1); (1, 1); (2, 0) ]})
    as [_ Hspec].
  destruct (Hspec Hne) as (_ & _ & Hfalse & _). apply Hfalse, Hb.
Defined.

(** C10: when the start is not the goal and the goal is a 4-neighbour of a
    cell the search expands, [_bfs_reachable] answers true; nothing is asked
    of the goal itself, which may be blocked or outside the grid, because
    the goal test comes before the bounds and blocked tests. *)
Theorem bfs_goal_tested_first (start goal : cell) (blocked : gset cell)
    (c : cell) (d : Z * Z) :
  start ≠ goal →
  explored blocked start c →
  d ∈ DIRS →
  step c d = goal →
  _bfs_reachable start goal blocked = true.
Proof.
  intros Hne Hc Hd Hg. apply bfs_reachable_iff. right. by exists c, d.
Qed.

Lemma bfs_goal_tested_first_witness :
  (* a blocked goal *)
  ((7, 8) ∈ ({[ (7, 8) ]} : gset cell) ∧
   _bfs_reachable (7, 7) (7, 8) {[ (7, 8) ]} = true) ∧
  (* a goal outside the grid *)
  (in_grid (-1, 0) = false ∧ _bfs_reachable (0, 0) (-1, 0) ∅ = true).
Proof.
  split; split.
  - by apply elem_of_singleton.
  - apply (bfs_goal_tested_first (7, 7) (7, 8) {[ (7, 8) ]} (7, 7) (0, 1)).
    + done.
    + constructor.
    + unfold DIRS. set_solver.
    + reflexivity.
  - reflexivity.
  - apply (bfs_goal_tested_first (0, 0) (-1, 0) ∅ (0, 0) (-1, 0)).
    + done.
    + constructor.
    + unfold DIRS. set_solver.
    + reflexivity.
Defined.

(** ** The sample sessions are where they are said to be *)

Example sample_game_map :
  piece_positions sample_game.1 = [(0, 13); (0, 9); (0, 5); (0, 3); (0, 14)] ∧
  size (pitfall_positions sample_game.1) = 20%nat ∧
  (0, 6) ∈ pitfall_positions sample_game.1.
Proof. split_and!; [reflexivity | reflexivity | by vm_compute]. Qed.

Example at_west_wall_state :
  position at_west_wall.1 = (0, 7) ∧ screen_state at_west_wall.1 = Playing ∧
  death_count at_west_wall.1 = 0.
Proof. by vm_compute. Qed.

Example below_revealed_pitfall_state :
  position below_revealed_pitfall.1 = (0, 7) ∧
  screen_state below_revealed_pitfall.1 = Playing ∧
  death_count below_revealed_pitfall.1 = 1 ∧
  revealed_pitfalls below_revealed_pitfall.1 = {[ (0, 6) ]}.
Proof. by vm_compute. Qed.

Example in_corner_state :
  position in_corner.1 = (14, 14) ∧ screen_state in_corner.1 = Playing.
Proof. by vm_compute. Qed.

Example before_last_piece_state :
  position before_last_piece.1 = (0, 13) ∧
  screen_state before_last_piece.1 = Playing ∧
  death_count before_last_piece.1 = 0 ∧
  collected_pieces before_last_piece.1 = {[ (0, 5); (0, 3); (0, 9); (0, 13) ]}.
Proof. by vm_compute. Qed.

(** ** The game state machine *)

Ltac unfold_rand := unfold mbind, Rand_bind, mret, Rand_ret in *.

(** Reads fields through the assignments made to a state. *)
Ltac simpl_state :=
  cbn [player_x player_y player_dir visited piece_positions collected_pieces
      pitfall_positions revealed_pitfalls death_count num_pitfalls
      screen_state flash_timer piece_timer piece_origin win_angle win_stars
      star_spawn_timer set_player_x set_player_y set_player_dir set_visited
      set_piece_positions set_collected_pieces set_pitfall_positions
      set_revealed_pitfalls set_death_count set_screen_state set_flash_timer
      set_piece_timer set_piece_origin set_win_angle set_win_stars
      set_star_spawn_timer
      fst snd] in *.

(** Opens [handle_keydown] for an arrow key pressed in the playing phase. *)
Ltac open_arrow_move k a Hplay Harrow :=
  unfold handle_keydown; rewrite Hplay;
  rewrite (bool_decide_eq_false_2 (Playing ∈ [Win; Flash; Piece]))
    by (rewrite !elem_of_cons, elem_of_nil; intros [? | [? | [? | []]]]; discriminate);
  destruct k; try discriminate Harrow; injection Harrow as <-;
  unfold in_grid, candidate, position in *; simpl_state;
  cbn [Z.eqb andb].

Section StateMachine.
Context {R : Type} (lib : Library R).

Lemma make_stars_spec (cx cy : Z) (count : nat) (r : R) :
  length (make_stars lib cx cy count r).1 = count ∧
  ∀ st, st ∈ (make_stars lib cx cy count r).1 →
    Star.x st = Int cx ∧ Star.y st = Int cy.
Proof.
  revert r. induction count as [| count IH]; intros r; simpl.
  - split; [done | by inversion 1].
  - unfold_rand.
    destruct (uniform lib 0%float (2 * pi lib)%float r) as [a r1].
    destruct (uniform lib 1%float 4.5%float r1) as [sp r2].
    destruct (uniform lib 0.008%float 0.022%float r2) as [dc r3].
    destruct (randint lib 2 5 r3) as [sz r4].
    destruct (choice lib _ r4) as [col r5].
    specialize (IH r5). destruct (make_stars lib cx cy count r5) as [stars r6].
    simpl in *. destruct IH as [Hlen Hall]. split; [by rewrite Hlen |].
    intros st Hst. apply elem_of_cons in Hst as [-> | Hst]; [done | by apply Hall].
Qed.

(** C3: in the playing phase, a directional move whose candidate cell is
    in [pitfall_positions] (a grid cell, as all pitfalls of a session are)
    adds one to [death_count], adds the cell to [revealed_pitfalls], puts
    the player on the start cell and enters the flash phase with its timer
    at [FLASH_DURATION] = 75, all in that one call and wherever the player
    stood. *)
Theorem pitfall_move (k : key) (a : Z * Z * Z) (s : GameState) (r : R) :
  screen_state s = Playing →
  arrow k = Some a →
  in_grid (candidate a s) = true →
  candidate a s ∈ pitfall_positions s →
  let s' := (handle_keydown lib k s r).1 in
  death_count s' = death_count s + 1 ∧
  revealed_pitfalls s' = {[candidate a s]} ∪ revealed_pitfalls s ∧
  position s' = START_POS ∧
  screen_state s' = Flash ∧
  flash_timer s' = 75.
Proof.
  intros Hplay Harrow Hgrid Hpit.
  open_arrow_move k a Hplay Harrow; rewrite Hgrid; cbn [negb];
    rewrite (bool_decide_eq_true_2 _ Hpit); unfold handle_pitfall; unfold_rand;
    simpl_state; done.
Qed.

(** C4, as the code has it: a pitfall stays a pitfall once revealed.  In
    the playing phase, a directional move onto a grid cell of
    [pitfall_positions] that is already in [revealed_pitfalls] triggers
    it again: [death_count] grows by one, the player is put on the start
    cell, the flash phase starts with its timer at 75, and
    [revealed_pitfalls] stays as it was. *)
Theorem revealed_pitfall_move (k : key) (a : Z * Z * Z) (s : GameState) (r : R) :
  screen_state s = Playing →
  arrow k = Some a →
  in_grid (candidate a s) = true →
  candidate a s ∈ pitfall_positions s →
  candidate a s ∈ revealed_pitfalls s →
  let s' := (handle_keydown lib k s r).1 in
  revealed_pitfalls s' = revealed_pitfalls s ∧
  death_count s' = death_count s + 1 ∧
  position s' = START_POS ∧
  screen_state s' = Flash ∧
  flash_timer s' = 75.
Proof.
  intros Hplay Harrow Hgrid Hpit Hrev.
  assert (∀ c : cell, c ∈ revealed_pitfalls s →
            {[c]} ∪ revealed_pitfalls s = revealed_pitfalls s) as Habs
    by (intros c Hc; apply set_eq; intros x; rewrite elem_of_union,
          elem_of_singleton; split; [by intros [-> | ?] | by right]).
  open_arrow_move k a Hplay Harrow; rewrite Hgrid; cbn [negb];
    rewrite (bool_decide_eq_true_2 _ Hpit); unfold handle_pitfall; unfold_rand;
    simpl_state; by rewrite (Habs _ Hrev).
Qed.

(** C5: in the playing phase, a directional move onto a grid cell that is
    no pitfall and is a piece not yet collected, when four pieces are
    collected already, ends in the win phase in that same call (not in
    the piece phase), with [win_angle] 0 and a burst of 40 stars, every
    one at the screen centre of that cell.  The collected set is then the
    set of piece positions (given the five distinct pieces of the map and
    that only pieces had been collected). *)
Theorem last_piece_move (k : key) (a : Z * Z * Z) (s : GameState) (r : R) :
  screen_state s = Playing →
  arrow k = Some a →
  in_grid (candidate a s) = true →
  candidate a s ∉ pitfall_positions s →
  candidate a s ∈ piece_positions s →
  candidate a s ∉ collected_pieces s →
  size (collected_pieces s) = 4%nat →
  let s' := (handle_keydown lib k s r).1 in
  screen_state s' = Win ∧
  collected_pieces s' = {[candidate a s]} ∪ collected_pieces s ∧
  win_angle s' = 0%float ∧
  length (win_stars s') = 40%nat ∧
  (∀ st, st ∈ win_stars s' →
     Star.x st = Int (screen_centre (candidate a s)).1 ∧
     Star.y st = Int (screen_centre (candidate a s)).2) ∧
  (NoDup (piece_positions s) →
   length (piece_positions s) = 5%nat →
   collected_pieces s ⊆ list_to_set (piece_positions s) →
   collected_pieces s' = list_to_set (piece_positions s')).
Proof.
  intros Hplay Harrow Hgrid Hpit Hpiece Hnew Hfour.
  assert (∀ c : cell, c ∉ collected_pieces s →
            (Z.of_nat (size ({[c]} ∪ collected_pieces s)) =? NUM_PIECES) = true)
    as Hfive.
  { intros c Hc. rewrite size_union, size_singleton, Hfour by set_solver. done. }
  assert (∀ c : cell, c ∈ piece_positions s → c ∉ collected_pieces s →
            NoDup (piece_positions s) → length (piece_positions s) = 5%nat →
            collected_pieces s ⊆ list_to_set (piece_positions s) →
            {[c]} ∪ collected_pieces s = list_to_set (piece_positions s)) as Hall.
  { intros c Hc Hn Hnd Hlen Hsub. apply set_subseteq_size_eq.
    - apply union_subseteq. split; [| done].
      by apply singleton_subseteq_l, elem_of_list_to_set.
    - rewrite size_list_to_set, Hlen by done.
      rewrite size_union, size_singleton, Hfour by set_solver. done. }
  open_arrow_move k a Hplay Harrow; rewrite Hgrid; cbn [negb];
    rewrite (bool_decide_eq_false_2 _ Hpit),
      (bool_decide_eq_true_2 _ Hpiece), (bool_decide_eq_true_2 _ Hnew);
    cbn [andb]; rewrite (Hfive _ Hnew); unfold_rand; unfold screen_centre;
    cbn [fst snd];
    match goal with
    | |- context [make_stars lib ?cx ?cy 40 r] =>
        destruct (make_stars_spec cx cy 40 r) as [Hlen Hstars];
        destruct (make_stars lib cx cy 40 r) as [stars r']
    end; simpl_state; split_and!; try done; by apply Hall.
Qed.

Lemma wall_move_once (k : key) (a : Z * Z * Z) (s : GameState) (r : R) :
  screen_state s = Playing →
  arrow k = Some a →
  in_grid (candidate a s) = false →
  same_but_facing s (handle_keydown lib k s r).1 ∧
  player_dir (handle_keydown lib k s r).1 = a.2 ∧
  (handle_keydown lib k s r).2 = r.
Proof.
  intros Hplay Harrow Hgrid. unfold same_but_facing.
  open_arrow_move k a Hplay Harrow; rewrite Hgrid; cbn [negb]; unfold_rand;
    simpl_state; done.
Qed.

(** C7: in the playing phase, a directional move whose candidate cell is
    outside the grid leaves position, [visited], [collected_pieces],
    [revealed_pitfalls], [death_count] and the phase as they were and sets
    the facing to the direction asked for; a second such move right after
    it does the same, the facing being each time that of the latest move. *)
Theorem wall_move_twice (k1 k2 : key) (a1 a2 : Z * Z * Z) (s : GameState) (r : R) :
  screen_state s = Playing →
  arrow k1 = Some a1 →
  in_grid (candidate a1 s) = false →
  arrow k2 = Some a2 →
  in_grid (candidate a2 s) = false →
  let s1 := (handle_keydown lib k1 s r).1 in
  let s2 := (handle_keydown lib k2 s1 (handle_keydown lib k1 s r).2).1 in
  (same_but_facing s s1 ∧ player_dir s1 = a1.2) ∧
  (candidate a2 s1 = candidate a2 s ∧
   same_but_facing s1 s2 ∧ same_but_facing s s2 ∧ player_dir s2 = a2.2).
Proof.
  intros Hplay H1 Hg1 H2 Hg2.
  destruct (wall_move_once k1 a1 s r Hplay H1 Hg1) as (Hsame1 & Hdir1 & Hr1).
  cbv zeta. rewrite Hr1.
  set (s1 := (handle_keydown lib k1 s r).1) in *.
  assert (candidate a2 s1 = candidate a2 s) as Hcand.
  { destruct Hsame1 as (Hpos & _). unfold candidate, position in *. congruence. }
  assert (screen_state s1 = Playing) as Hplay1.
  { destruct Hsame1 as (_ & _ & _ & _ & _ & ->). done. }
  destruct (wall_move_once k2 a2 s1 r Hplay1 H2) as (Hsame2 & Hdir2 & _);
    [by rewrite Hcand |].
  split_and!; try done.
  unfold same_but_facing in *.
  destruct Hsame1 as (? & ? & ? & ? & ? & ?).
  destruct Hsame2 as (? & ? & ? & ? & ? & ?).
  split_and!; congruence.
Qed.

Lemma reset_game_as_new_game (s : GameState) (r : R) :
  reset_game lib s r = new_game lib (num_pitfalls s) r.
Proof.
  unfold new_game, reset_game. unfold_rand.
  destruct (place_items lib (num_pitfalls s) r) as [[pieces pitfalls] r'].
  reflexivity.
Qed.

(** C8: [new_game n] starts on the start cell with [visited] = {start},
    nothing collected or revealed, no deaths, in the playing phase, on a
    map made by [place_items n]; and [reset_game] turns any state into
    exactly the state [new_game] makes for the pitfall count stored in it
    (drawing from the random source in the same way), which it keeps. *)
Theorem new_game_reset_game (n : Z) (s : GameState) (r : R) :
  (let g := (new_game lib n r).1 in
   position g = START_POS ∧
   visited g = {[START_POS]} ∧
   collected_pieces g = ∅ ∧
   revealed_pitfalls g = ∅ ∧
   death_count g = 0 ∧
   screen_state g = Playing ∧
   num_pitfalls g = n ∧
   (piece_positions g, pitfall_positions g) = (place_items lib n r).1) ∧
  reset_game lib s r = new_game lib (num_pitfalls s) r ∧
  num_pitfalls (reset_game lib s r).1 = num_pitfalls s.
Proof.
  split; [| split].
  - unfold new_game. unfold_rand.
    destruct (place_items lib n r) as [[pieces pitfalls] r'].
    cbn [fst snd]. unfold position. simpl_state.
    split_and!; reflexivity.
  - apply reset_game_as_new_game.
  - rewrite reset_game_as_new_game. unfold new_game. unfold_rand.
    destruct (place_items lib (num_pitfalls s) r) as [[pieces pitfalls] r'].
    reflexivity.
Qed.
End StateMachine.

(** ** The visited set *)

(** Settles the tests of [handle_keydown] on a known phase and key. *)
Ltac decide_closed :=
  repeat match goal with
  | |- context [bool_decide (?x ∈ ?l)] =>
      is_constructor x;
      let b := eval vm_compute in (bool_decide (x ∈ l)) in
      change (bool_decide (x ∈ l)) with b
  | |- context [bool_decide (?x = ?y)] =>
      is_constructor x; is_constructor y;
      let b := eval vm_compute in (bool_decide (x = y)) in
      change (bool_decide (x = y)) with b
  end.

Section Visited.
Context {R : Type} (lib : Library R).

Lemma reset_game_covers (s : GameState) (r : R) : covers (reset_game lib s r).1.
Proof.
  unfold reset_game, covers, position. unfold_rand.
  destruct (place_items lib (num_pitfalls s) r) as [[pieces pitfalls] r'].
  simpl_state. split; by apply elem_of_singleton.
Qed.

Lemma new_game_covers (n : Z) (r : R) : covers (new_game lib n r).1.
Proof.
  unfold new_game, covers, position. unfold_rand.
  destruct (place_items lib n r) as [[pieces pitfalls] r'].
  simpl_state. split; by apply elem_of_singleton.
Qed.

Lemma handle_keydown_visited (k : key) (s : GameState) (r : R) :
  let s' := (handle_keydown lib k s r).1 in
  (is_reset (KeyDown k) s = false → visited s ⊆ visited s') ∧
  (covers s → covers s').
Proof.
  cbv zeta.
  destruct (decide (is_reset (KeyDown k) s = true)) as [Hreset | Hreset].
  { split; [congruence |]. intros _. unfold handle_keydown.
    unfold is_reset in Hreset. apply andb_prop in Hreset as [Hwin Hkey].
    apply bool_decide_eq_true in Hwin. rewrite Hwin in *. rewrite Hkey.
    decide_closed. cbn [andb]. apply reset_game_covers. }
  apply not_true_is_false in Hreset. unfold is_reset in Hreset.
  unfold handle_keydown, handle_pitfall, covers, position. unfold_rand.
  destruct (screen_state s) eqn:Hscr; destruct k; decide_closed;
    try discriminate Hreset; cbn [andb fst snd]; simpl_state;
    cbn [Z.eqb andb fst snd]; simpl_state;
    repeat match goal with
    | |- context [if ?b then _ else _] => destruct b
    | |- context [make_stars lib ?cx ?cy ?n ?r0] =>
        destruct (make_stars lib cx cy n r0)
    end; simpl_state; (split; [intros _ | intros [Hs Hp]]);
    try done; set_solver.
Qed.

Lemma tick_visited (s : GameState) (r : R) :
  visited (tick lib s r).1 = visited s ∧ position (tick lib s r).1 = position s.
Proof.
  unfold tick, position. unfold_rand.
  destruct (screen_state s); simpl_state;
    repeat match goal with
    | |- context [if ?b then _ else _] => destruct b
    | |- context [make_stars lib ?cx ?cy ?n ?r0] =>
        destruct (make_stars lib cx cy n r0)
    end; simpl_state; done.
Qed.

Lemma game_step_visited (ev : event) (s : GameState) (r : R) :
  let s' := (game_step lib ev s r).1 in
  (is_reset ev s = false → visited s ⊆ visited s') ∧
  (covers s → covers s').
Proof.
  destruct ev as [k |]; [apply handle_keydown_visited |].
  cbv zeta. cbn [game_step]. destruct (tick_visited s r) as [Hv Hp].
  unfold covers. rewrite Hv, Hp. done.
Qed.

Lemma run_covers (evs : list event) (s : GameState) (r : R) :
  covers s → covers (run lib evs s r).1.
Proof.
  revert s r. induction evs as [| ev evs IH]; intros s r Hs; [done |].
  cbn [run]. unfold_rand.
  pose proof (game_step_visited ev s r) as [_ Hstep].
  destruct (game_step lib ev s r) as [s' r']. apply IH. by apply Hstep.
Qed.

(** C9: between resets the visited set only grows, under every event the
    state machine takes (a key press, with the pitfall and piece
    transitions it may trigger, or a frame update); every event keeps the
    start cell and the player's cell in it; and so they are in it after
    any sequence of events of a game started by [new_game]. *)
Theorem visited_grows_and_covers :
  (∀ ev s r, is_reset ev s = false →
     visited s ⊆ visited (game_step lib ev s r).1) ∧
  (∀ ev s r, covers s → covers (game_step lib ev s r).1) ∧
  (∀ n evs r,
     covers (run lib evs (new_game lib n r).1 (new_game lib n r).2).1).
Proof.
  split_and!.
  - intros ev s r. apply game_step_visited.
  - intros ev s r. apply game_step_visited.
  - intros n evs r. apply run_covers, new_game_covers.
Qed.
End Visited.

(** ** The transitions on the sample sessions *)

(** Settles a decidable statement about concrete data by evaluation. *)
Ltac by_evaluation := apply (bool_decide_unpack _); vm_compute; exact I.

Lemma pitfall_move_witness :
  let s := at_west_wall.1 in
  let s' := (handle_keydown sample_lib K_UP s at_west_wall.2).1 in
  (screen_state s = Playing ∧
   arrow K_UP = Some (0, -1, 0) ∧
   in_grid (candidate (0, -1, 0) s) = true ∧
   candidate (0, -1, 0) s ∈ pitfall_positions s) ∧
  (death_count s' = death_count s + 1 ∧
   revealed_pitfalls s' = {[candidate (0, -1, 0) s]} ∪ revealed_pitfalls s ∧
   position s' = START_POS ∧
   screen_state s' = Flash ∧
   flash_timer s' = 75).
Proof.
  cbv zeta.
  assert (screen_state at_west_wall.1 = Playing) as H1 by reflexivity.
  assert (arrow K_UP = Some (0, -1, 0)) as H2 by reflexivity.
  assert (in_grid (candidate (0, -1, 0) at_west_wall.1) = true) as H3 by reflexivity.
  assert (candidate (0, -1, 0) at_west_wall.1 ∈ pitfall_positions at_west_wall.1)
    as H4 by by_evaluation.
  split; [by split_and! |].
  exact (pitfall_move sample_lib K_UP (0, -1, 0) at_west_wall.1 at_west_wall.2
           H1 H2 H3 H4).
Defined.

(** C4 does not hold as stated: on the sample map the player fell into the
    pitfall (0, 6), which revealed it, and steps onto it again from (0, 7).
    The move is no no-op: the phase becomes flash, [death_count] goes from
    1 to 2, and the player is back on the start cell. *)
Lemma revealed_pitfall_move_counterexample :
  let s := below_revealed_pitfall.1 in
  let s' := (handle_keydown sample_lib K_UP s below_revealed_pitfall.2).1 in
  (screen_state s = Playing ∧
   candidate (0, -1, 0) s = (0, 6) ∧
   (0, 6) ∈ pitfall_positions s ∧
   (0, 6) ∈ revealed_pitfalls s) ∧
  (screen_state s' = Flash ∧
   death_count s = 1 ∧ death_count s' = 2 ∧
   position s' = START_POS) ∧
  ¬ (screen_state s' = Playing ∧
     death_count s' = death_count s ∧
     revealed_pitfalls s' = revealed_pitfalls s ∧
     position s' ≠ START_POS).
Proof.
  cbv zeta. split; [| split].
  - split_and!; first [reflexivity | by_evaluation].
  - split_and!; reflexivity.
  - intros (Hphase & _). vm_compute in Hphase. discriminate Hphase.
Qed.

Lemma revealed_pitfall_move_witness :
  let s := below_revealed_pitfall.1 in
  let s' := (handle_keydown sample_lib K_UP s below_revealed_pitfall.2).1 in
  (screen_state s = Playing ∧
   arrow K_UP = Some (0, -1, 0) ∧
   in_grid (candidate (0, -1, 0) s) = true ∧
   candidate (0, -1, 0) s ∈ pitfall_positions s ∧
   candidate (0, -1, 0) s ∈ revealed_pitfalls s) ∧
  (revealed_pitfalls s' = revealed_pitfalls s ∧
   death_count s' = death_count s + 1 ∧
   position s' = START_POS ∧
   screen_state s' = Flash ∧
   flash_timer s' = 75).
Proof.
  cbv zeta.
  assert (screen_state below_revealed_pitfall.1 = Playing) as H1 by reflexivity.
  assert (arrow K_UP = Some (0, -1, 0)) as H2 by reflexivity.
  assert (in_grid (candidate (0, -1, 0) below_revealed_pitfall.1) = true)
    as H3 by reflexivity.
  assert (candidate (0, -1, 0) below_revealed_pitfall.1
            ∈ pitfall_positions below_revealed_pitfall.1) as H4 by by_evaluation.
  assert (candidate (0, -1, 0) below_revealed_pitfall.1
            ∈ revealed_pitfalls below_revealed_pitfall.1) as H5 by by_evaluation.
  split; [by split_and! |].
  exact (revealed_pitfall_move sample_lib K_UP (0, -1, 0)
           below_revealed_pitfall.1 below_revealed_pitfall.2 H1 H2 H3 H4 H5).
Defined.

Lemma last_piece_move_witness :
  let s := before_last_piece.1 in
  let s' := (handle_keydown sample_lib K_DOWN s before_last_piece.2).1 in
  (screen_state s = Playing ∧
   arrow K_DOWN = Some (0, 1, 1) ∧
   in_grid (candidate (0, 1, 1) s) = true ∧
   (candidate (0, 1, 1) s ∉ pitfall_positions s) ∧
   candidate (0, 1, 1) s ∈ piece_positions s ∧
   (candidate (0, 1, 1) s ∉ collected_pieces s) ∧
   size (collected_pieces s) = 4%nat) ∧
  (NoDup (piece_positions s) ∧
   length (piece_positions s) = 5%nat ∧
   collected_pieces s ⊆ list_to_set (piece_positions s)) ∧
  (screen_state s' = Win ∧
   win_angle s' = 0%float ∧
   length (win_stars s') = 40%nat ∧
   (∀ st, st ∈ win_stars s' → Star.x st = Int 20 ∧ Star.y st = Int 630) ∧
   collected_pieces s' = list_to_set (piece_positions s') ∧
   death_count s' = 0).
Proof.
  cbv zeta.
  assert (screen_state before_last_piece.1 = Playing) as H1 by reflexivity.
  assert (arrow K_DOWN = Some (0, 1, 1)) as H2 by reflexivity.
  assert (in_grid (candidate (0, 1, 1) before_last_piece.1) = true) as H3 by reflexivity.
  assert (candidate (0, 1, 1) before_last_piece.1
            ∉ pitfall_positions before_last_piece.1) as H4 by by_evaluation.
  assert (candidate (0, 1, 1) before_last_piece.1
            ∈ piece_positions before_last_piece.1) as H5 by by_evaluation.
  assert (candidate (0, 1, 1) before_last_piece.1
            ∉ collected_pieces before_last_piece.1) as H6 by by_evaluation.
  assert (size (collected_pieces before_last_piece.1) = 4%nat) as H7 by reflexivity.
  assert (NoDup (piece_positions before_last_piece.1)) as H8 by by_evaluation.
  assert (length (piece_positions before_last_piece.1) = 5%nat) as H9 by reflexivity.
  assert (collected_pieces before_last_piece.1
            ⊆ list_to_set (piece_positions before_last_piece.1)) as H10 by by_evaluation.
  split; [by split_and! |]. split; [by split_and! |].
  destruct (last_piece_move sample_lib K_DOWN (0, 1, 1) before_last_piece.1
              before_last_piece.2 H1 H2 H3 H4 H5 H6 H7)
    as (Hwin & _ & Hangle & Hlen & Hstars & Hall).
  split_and!; [exact Hwin | exact Hangle | exact Hlen | exact Hstars
              | exact (Hall H8 H9 H10) | reflexivity].
Defined.

Lemma wall_move_twice_witness :
  let s := in_corner.1 in
  let s1 := (handle_keydown sample_lib K_RIGHT s in_corner.2).1 in
  let s2 := (handle_keydown sample_lib K_DOWN s1
               (handle_keydown sample_lib K_RIGHT s in_corner.2).2).1 in
  (screen_state s = Playing ∧
   arrow K_RIGHT = Some (1, 0, 3) ∧ in_grid (candidate (1, 0, 3) s) = false ∧
   arrow K_DOWN = Some (0, 1, 1) ∧ in_grid (candidate (0, 1, 1) s) = false) ∧
  (same_but_facing s s1 ∧ player_dir s1 = 3) ∧
  (candidate (0, 1, 1) s1 = candidate (0, 1, 1) s ∧
   same_but_facing s1 s2 ∧ same_but_facing s s2 ∧ player_dir s2 = 1).
Proof.
  cbv zeta.
  assert (screen_state in_corner.1 = Playing) as H1 by reflexivity.
  assert (arrow K_RIGHT = Some (1, 0, 3)) as H2 by reflexivity.
  assert (in_grid (candidate (1, 0, 3) in_corner.1) = false) as H3 by reflexivity.
  assert (arrow K_DOWN = Some (0, 1, 1)) as H4 by reflexivity.
  assert (in_grid (candidate (0, 1, 1) in_corner.1) = false) as H5 by reflexivity.
  split; [by split_and! |].
  exact (wall_move_twice sample_lib K_RIGHT K_DOWN (1, 0, 3) (0, 1, 1)
           in_corner.1 in_corner.2 H1 H2 H3 H4 H5).
Defined.

Lemma visited_grows_and_covers_witness :
  let s := at_west_wall.1 in
  let s' := (game_step sample_lib (KeyDown K_UP) s at_west_wall.2).1 in
  is_reset (KeyDown K_UP) s = false ∧
  covers s ∧
  visited s ⊆ visited s' ∧
  covers s'.
Proof.
  cbv zeta.
  assert (is_reset (KeyDown K_UP) at_west_wall.1 = false) as H1 by reflexivity.
  assert (covers at_west_wall.1) as H2 by (split; by_evaluation).
  destruct (visited_grows_and_covers sample_lib) as (Hgrow & Hcover & _).
  split_and!; [exact H1 | exact H2 | exact (Hgrow _ _ _ H1) | exact (Hcover _ _ _ H2)].
Defined.

(** ** Every state of a session is well formed *)

Section WellFormed.
Context {R : Type} (lib : Library R).
Hypothesis shuffle_ok : shuffle_permutes lib.

Lemma place_items_well_formed (n : Z) (r : R) :
  NoDup (place_items lib n r).1.1 ∧
  length (place_items lib n r).1.1 = 5%nat ∧
  ∀ c, c ∈ (place_items lib n r).1.2 → in_grid c = true.
Proof.
  destruct (place_items_unfold lib n r shuffle_ok)
    as (pool & ps & cands & r' & Hpool & Hps & Hsub & _ & Hcands & E).
  rewrite E. cbn [fst snd]. clear E. split_and!.
  - apply (sublist_NoDup _ pool); [| done]. rewrite Hpool. apply NoDup_elements.
  - rewrite Hps. apply place_pieces_length.
    + intros c Hc. by apply (elem_of_pool pool).
    + simpl. lia.
    + rewrite (length_pool pool Hpool). simpl. lia.
  - intros c Hc. apply place_pitfalls_subseteq in Hc.
    rewrite (left_id_L ∅ (∪)), elem_of_list_to_set, Hcands, elem_of_elements,
      elem_of_difference in Hc.
    exact (proj1 (elem_of_all_cells c) (proj1 Hc)).
Qed.

Lemma new_game_well_formed (n : Z) (r : R) : well_formed (new_game lib n r).1.
Proof.
  pose proof (place_items_well_formed n r) as (Hnd & Hlen & Hgrid).
  unfold new_game, well_formed. unfold_rand.
  destruct (place_items lib n r) as [[pieces pitfalls] r'].
  simpl_state. split_and!; [done | done | | done |]; apply empty_subseteq.
Qed.

Lemma reset_game_well_formed (s : GameState) (r : R) :
  well_formed (reset_game lib s r).1.
Proof.
  rewrite reset_game_as_new_game. apply new_game_well_formed.
Qed.

Lemma handle_keydown_well_formed (k : key) (s : GameState) (r : R) :
  well_formed s → well_formed (handle_keydown lib k s r).1.
Proof.
  intros Hwf. unfold handle_keydown.
  destruct (screen_state s) eqn:Hscr; destruct k; decide_closed; cbn [andb];
    try exact Hwf; try apply reset_game_well_formed;
    simpl_state; cbn [Z.eqb andb];
    (destruct (negb _); [exact Hwf |]);
    destruct Hwf as (Hnd & Hlen & Hcol & Hgrid & Hrev);
    (case_bool_decide as Hpit;
     [ unfold handle_pitfall, well_formed; unfold_rand; simpl_state;
       split_and!; try done;
       intros x [->%elem_of_singleton | Hx]%elem_of_union; [done | by apply Hrev]
     | ]);
    (destruct (bool_decide _ && bool_decide _) eqn:Hnew;
     [ apply andb_prop in Hnew as [Hpiece%bool_decide_eq_true _]
     | by unfold well_formed; unfold_rand; simpl_state ]);
    simpl_state;
    assert (∀ c : cell, c ∈ piece_positions s →
              {[c]} ∪ collected_pieces s ⊆ list_to_set (piece_positions s)) as Hadd
      by (intros c Hc x [->%elem_of_singleton | Hx]%elem_of_union;
          [by apply elem_of_list_to_set | by apply Hcol]);
    (destruct (_ =? NUM_PIECES);
     [ unfold_rand;
       match goal with
       | |- context [make_stars lib ?cx ?cy ?n r] =>
           destruct (make_stars lib cx cy n r)
       end
     | unfold_rand ]);
    unfold well_formed; simpl_state; split_and!; try done; by apply Hadd.
Qed.

Lemma tick_well_formed (s : GameState) (r : R) :
  well_formed s → well_formed (tick lib s r).1.
Proof.
  unfold tick, well_formed. unfold_rand.
  destruct (screen_state s); simpl_state;
    repeat match goal with
    | |- context [if ?b then _ else _] => destruct b
    | |- context [make_stars lib ?cx ?cy ?n ?r0] =>
        destruct (make_stars lib cx cy n r0)
    end; simpl_state; done.
Qed.

(** The states of a game started by [new_game] are well formed; so, in a
    session, a candidate cell in [pitfall_positions] is a grid cell, and the
    pieces are five distinct cells of which the collected ones are some. *)
Lemma session_well_formed (n : Z) (evs : list event) (r : R) :
  well_formed (run lib evs (new_game lib n r).1 (new_game lib n r).2).1.
Proof.
  pose proof (new_game_well_formed n r) as Hwf. revert Hwf.
  generalize (new_game lib n r).2 as r0. generalize (new_game lib n r).1 as s.
  induction evs as [| ev evs IH]; intros s r0 Hwf; [done |].
  cbn [run]. unfold_rand.
  assert (well_formed (game_step lib ev s r0).1) as Hstep.
  { destruct ev; [by apply handle_keydown_well_formed | by apply tick_well_formed]. }
  destruct (game_step lib ev s r0) as [s' r']. by apply IH.
Qed.
End WellFormed.
